(** * wangle/acceptor/ManagedConnection.h

    A shallow embedding of [wangle::ManagedConnection]: the drain state
    machine ([fireNotifyPendingShutdown], [fireCloseWhenIdle]), the
    connection-manager back-reference, the default [getIdleTime], and the
    idle-timeout glue.

    The class is abstract: its hooks are pure virtual.  A concrete connection
    type is an instance of [ConnectionImpl] over the type [Derived] of its own
    data members; the private members of the base ([state_],
    [connectionManager_], [listHook_]) are out of reach of a hook body, which
    therefore acts on [Derived] only; a hook body that calls back into the
    drain interface or into the manager is outside this model.  Every virtual
    call is also recorded in a log, so that "fires exactly once" and "fires
    before" are statements about that log. *)

From Stdlib Require Import ZArith List Bool Lia.
From stdpp Require Import base decidable option list gmap.
Import ListNotations.

Set Default Proof Using "Type".

(** ** Data *)

(** [std::chrono::milliseconds]: a signed tick count. *)
Definition milliseconds : Type := Z.

(** A raw pointer is an address; address 0 is [nullptr]. *)
Definition ptr : Type := N.
Definition nullptr : ptr := 0%N.

(** [enum class DrainState], in declaration order. *)
Inductive DrainState : Type :=
| NONE
| SENT_NOTIFY_PENDING_SHUTDOWN
| SENT_CLOSE_WHEN_IDLE.

#[global] Instance DrainState_eq_dec : EqDecision DrainState.
Proof. solve_decision. Defined.

(** The underlying value of each enumerator. *)
Definition rank (s : DrainState) : nat :=
  match s with
  | NONE => 0
  | SENT_NOTIFY_PENDING_SHUTDOWN => 1
  | SENT_CLOSE_WHEN_IDLE => 2
  end.

(** The two drain hooks, as entries of the call log. *)
Inductive HookCall : Type :=
| NotifyPendingShutdown
| CloseWhenIdle.

#[global] Instance HookCall_eq_dec : EqDecision HookCall.
Proof. solve_decision. Defined.

(** The virtual interface a concrete connection fills in.  [getIdleTime] is
    virtual with a body in the base class, so an implementation may leave it
    out ([None]) or override it. *)
Class ConnectionImpl (Derived : Type) : Type := {
  notifyPendingShutdown : Derived -> Derived;
  closeWhenIdle : Derived -> Derived;
  isBusy : Derived -> bool;
  getIdleTime_override : option (Derived -> milliseconds)
}.

(** The object: the data members of the base class, then those of the
    concrete type.  [ListHook] stands for [folly::SafeIntrusiveListHook]. *)
Record ManagedConnection (Derived ListHook : Type) : Type := Build_ManagedConnection {
  state_ : DrainState;
  connectionManager_ : ptr;
  listHook_ : ListHook;
  derived : Derived
}.
Arguments Build_ManagedConnection {Derived ListHook} _ _ _ _.
Arguments state_ {Derived ListHook} _.
Arguments connectionManager_ {Derived ListHook} _.
Arguments listHook_ {Derived ListHook} _.
Arguments derived {Derived ListHook} _.

(** What a member function leaves behind: its return value, the object
    afterwards, and the hooks it fired, oldest first. *)
Record Outcome (Obj A : Type) : Type := Build_Outcome {
  retval : A;
  self : Obj;
  fired : list HookCall
}.
Arguments Build_Outcome {Obj A} _ _ _.
Arguments retval {Obj A} _.
Arguments self {Obj A} _.
Arguments fired {Obj A} _.

(** ** Member functions as state-and-log computations *)

Definition Method (Obj A : Type) : Type := Obj -> Outcome Obj A.

Definition ret {Obj A} (a : A) : Method Obj A :=
  fun this => Build_Outcome a this [].

Definition bind {Obj A B} (m : Method Obj A) (k : A -> Method Obj B) : Method Obj B :=
  fun this =>
    let r := m this in
    let r' := k (retval r) (self r) in
    Build_Outcome (retval r') (self r') (fired r ++ fired r').

Declare Scope method_scope.
Delimit Scope method_scope with method.
Notation "'let*' x ':=' m 'in' k" := (bind m (fun x => k))
  (at level 10, x name, m at level 100, k at level 200) : method_scope.
Notation "m ';;' k" := (bind m (fun _ => k))
  (at level 100, k at level 200, right associativity) : method_scope.

Section Connection.
Context {Derived ListHook : Type} `{Impl : ConnectionImpl Derived}.

Local Abbreviation Conn := (ManagedConnection Derived ListHook).

Definition load {A} (field : Conn -> A) : Method Conn A :=
  fun this => Build_Outcome (field this) this [].

Definition store_state_ (s : DrainState) : Method Conn unit :=
  fun this =>
    Build_Outcome tt
      (Build_ManagedConnection s (connectionManager_ this) (listHook_ this) (derived this))
      [].

Definition store_connectionManager_ (mgr : ptr) : Method Conn unit :=
  fun this =>
    Build_Outcome tt
      (Build_ManagedConnection (state_ this) mgr (listHook_ this) (derived this))
      [].

(** The body a hook dispatches to. *)
Definition hook_body (h : HookCall) : Derived -> Derived :=
  match h with
  | NotifyPendingShutdown => notifyPendingShutdown
  | CloseWhenIdle => closeWhenIdle
  end.

(** A virtual call on [this]: runs the implementation on the concrete
    type's members and logs the call. *)
Definition virtual_call (h : HookCall) : Method Conn unit :=
  fun this =>
    Build_Outcome tt
      (Build_ManagedConnection (state_ this) (connectionManager_ this) (listHook_ this)
         (hook_body h (derived this)))
      [h].

Local Open Scope method_scope.

(** [void fireNotifyPendingShutdown()] *)
Definition fireNotifyPendingShutdown : Method Conn unit :=
  let* s := load state_ in
  if bool_decide (s = NONE) then
    store_state_ SENT_NOTIFY_PENDING_SHUTDOWN ;;
    virtual_call NotifyPendingShutdown
  else ret tt.

(** [void fireCloseWhenIdle(bool force_to_close = false)] *)
Definition fireCloseWhenIdle (force_to_close : bool) : Method Conn unit :=
  let* s := load state_ in
  if force_to_close || bool_decide (s = SENT_NOTIFY_PENDING_SHUTDOWN) then
    store_state_ SENT_CLOSE_WHEN_IDLE ;;
    virtual_call CloseWhenIdle
  else ret tt.

(** [ConnectionManager* getConnectionManager()] *)
Definition getConnectionManager : Method Conn ptr :=
  load connectionManager_.

(** [void setConnectionManager(ConnectionManager* mgr)] *)
Definition setConnectionManager (mgr : ptr) : Method Conn unit :=
  store_connectionManager_ mgr.

(** [virtual std::chrono::milliseconds getIdleTime() const]: the override if
    the concrete type has one, the base body otherwise. *)
Definition getIdleTime (this : Conn) : milliseconds :=
  match getIdleTime_override with
  | Some f => f (derived this)
  | None => 0%Z
  end.

(** The constructor leaves [state_] to its default member initializer
    [state_{DrainState::NONE}]; the other members are whatever the constructor
    and the concrete type give them. *)
Definition construct (mgr : ptr) (hook : ListHook) (d : Derived) : Conn :=
  Build_ManagedConnection NONE mgr hook d.

(** ** Sequences of drain calls *)

(** One call of the drain interface, as a connection manager issues it. *)
Inductive DrainOp : Type :=
| FireNotifyPendingShutdown
| FireCloseWhenIdle (force_to_close : bool).

Definition call (op : DrainOp) : Method Conn unit :=
  match op with
  | FireNotifyPendingShutdown => fireNotifyPendingShutdown
  | FireCloseWhenIdle force_to_close => fireCloseWhenIdle force_to_close
  end.

Fixpoint run (ops : list DrainOp) : Method Conn unit :=
  match ops with
  | [] => ret tt
  | op :: ops' => call op ;; run ops'
  end.

Definition is_forced (op : DrainOp) : bool :=
  match op with
  | FireCloseWhenIdle true => true
  | _ => false
  end.

(** How many calls of a sequence are [fireCloseWhenIdle(true)]. *)
Fixpoint forcedCalls (ops : list DrainOp) : nat :=
  match ops with
  | [] => 0
  | op :: ops' => (if is_forced op then 1 else 0) + forcedCalls ops'
  end.

(** The state an operation waits for.  A forced close waits for none: its
    guard is [force_to_close || ...]. *)
Definition requiredPredecessor (op : DrainOp) : option DrainState :=
  match op with
  | FireNotifyPendingShutdown => Some NONE
  | FireCloseWhenIdle false => Some SENT_NOTIFY_PENDING_SHUTDOWN
  | FireCloseWhenIdle true => None
  end.

Definition predecessorMatches (op : DrainOp) (s : DrainState) : Prop :=
  match requiredPredecessor op with
  | Some p => s = p
  | None => True
  end.

(** What a single call does, by operation and state: it either fires its
    hook and moves on, or changes nothing. *)
Inductive call_spec (op : DrainOp) (c : Conn) : Outcome Conn unit -> Prop :=
| call_notify :
    op = FireNotifyPendingShutdown -> state_ c = NONE ->
    call_spec op c
      (Build_Outcome tt
         (Build_ManagedConnection SENT_NOTIFY_PENDING_SHUTDOWN (connectionManager_ c)
            (listHook_ c) (notifyPendingShutdown (derived c)))
         [NotifyPendingShutdown])
| call_close force_to_close :
    op = FireCloseWhenIdle force_to_close ->
    force_to_close = true \/ state_ c = SENT_NOTIFY_PENDING_SHUTDOWN ->
    call_spec op c
      (Build_Outcome tt
         (Build_ManagedConnection SENT_CLOSE_WHEN_IDLE (connectionManager_ c)
            (listHook_ c) (closeWhenIdle (derived c)))
         [CloseWhenIdle])
| call_skip :
    is_forced op = false -> ~ predecessorMatches op (state_ c) ->
    call_spec op c (Build_Outcome tt c []).

(** The value of [state_] before the first call and after every call. *)
Fixpoint history (ops : list DrainOp) (this : Conn) : list DrainState :=
  state_ this ::
  match ops with
  | [] => []
  | op :: ops' => history ops' (self (call op this))
  end.

(** Drops every entry equal to the one before it. *)
Fixpoint squash (l : list DrainState) : list DrainState :=
  match l with
  | [] => []
  | s :: l' =>
      match l' with
      | [] => [s]
      | s' :: _ => if bool_decide (s = s') then squash l' else s :: squash l'
      end
  end.

(** The drain states a connection goes through, each listed when entered. *)
Definition visited (ops : list DrainOp) (this : Conn) : list DrainState :=
  squash (history ops this).

(** The chain of drain states in declaration order. *)
Definition drainChain : list DrainState :=
  [NONE; SENT_NOTIFY_PENDING_SHUTDOWN; SENT_CLOSE_WHEN_IDLE].

(** The visited states are an initial segment of the chain. *)
Definition visitsChainPrefix (ops : list DrainOp) (this : Conn) : Prop :=
  visited ops this `prefix_of` drainChain.

(** How often hook [h] occurs in a log. *)
Definition timesFired (h : HookCall) (log : list HookCall) : nat :=
  count_occ HookCall_eq_dec log h.

(** Hook [h] fires at most once over a sequence of calls. *)
Definition firesAtMostOnce (h : HookCall) (ops : list DrainOp) (this : Conn) : Prop :=
  timesFired h (fired (run ops this)) <= 1.

(** ** Calls that include the manager's private setter *)

Inductive Call : Type :=
| Drain (op : DrainOp)
| SetConnectionManager (mgr : ptr).

Definition invoke (c : Call) : Method Conn unit :=
  match c with
  | Drain op => call op
  | SetConnectionManager mgr => setConnectionManager mgr
  end.

Fixpoint runCalls (calls : list Call) : Method Conn unit :=
  match calls with
  | [] => ret tt
  | c :: calls' => invoke c ;; runCalls calls'
  end.

(** The pointer most recently passed to [setConnectionManager] in a sequence
    of calls, [cur] when there was no such call. *)
Fixpoint lastSet (calls : list Call) (cur : ptr) : ptr :=
  match calls with
  | [] => cur
  | Drain _ :: calls' => lastSet calls' cur
  | SetConnectionManager mgr :: calls' => lastSet calls' mgr
  end.

(** ** The drain state and the last hook *)

(** The state a drain function stores just before it calls hook [h]. *)
Definition stateStoredFor (h : HookCall) : DrainState :=
  match h with
  | NotifyPendingShutdown => SENT_NOTIFY_PENDING_SHUTDOWN
  | CloseWhenIdle => SENT_CLOSE_WHEN_IDLE
  end.

(** The two calls of a graceful drain, in the order a manager issues them. *)
Definition gracefulSweep : list DrainOp :=
  [FireNotifyPendingShutdown; FireCloseWhenIdle false].

(** ** Idle-based eviction *)

(** Modelled from the spec: the idle-eviction sweep of the connection manager,
    whose code (ConnectionManager.cpp) is not among the sources.  The spec and
    the comment on [getIdleTime] fix one rule: a connection whose
    [getIdleTime()] is zero is never selected.  Whatever else the manager
    requires (threshold, elapsed time) is the parameter [eligible]. *)
Definition idleEvictionSelects (eligible : Conn -> bool) (this : Conn) : bool :=
  negb (getIdleTime this =? 0)%Z && eligible this.

(** Modelled from the spec: the connections a sweep over [conns] drops. *)
Definition dropIdleConnections (eligible : Conn -> bool) (conns : list Conn) : list Conn :=
  List.filter (idleEvictionSelects eligible) conns.

End Connection.

(** ** Idle timeouts *)

(** Modelled from the spec: the connection manager as the timeout glue sees
    it (ConnectionManager is only forward-declared in the header): its default
    timeout interval and its timer facility, a map from the address of a
    registered callback to the time at which it expires.  A map holds one
    entry per key, so a callback has at most one pending registration and
    scheduling again replaces it. *)
Record ConnectionManager : Type := Build_ConnectionManager {
  defaultTimeout : milliseconds;
  timer : gmap N milliseconds
}.

(** Modelled from the spec: what lies outside the connection: the clock and
    the connection managers, by address. *)
Record Env : Type := Build_Env {
  now : milliseconds;
  managers : gmap N ConnectionManager
}.

Section Timeouts.
Context {Derived ListHook : Type}.

Local Abbreviation Conn := (ManagedConnection Derived ListHook).

(** Modelled from the spec: [ConnectionManager::scheduleTimeout(callback,
    timeout)] on the manager at address [mgr]: registers [callback] to expire
    [timeout] from now, in place of any registration it had.  [None] when
    [mgr] is not the address of a manager. *)
Definition scheduleTimeoutOn (mgr callback : ptr) (timeout : milliseconds) (env : Env)
  : option Env :=
  match managers env !! mgr with
  | Some m =>
      Some (Build_Env (now env)
              (<[mgr := Build_ConnectionManager (defaultTimeout m)
                          (<[callback := (now env + timeout)%Z]> (timer m))]>
                 (managers env)))
  | None => None
  end.

(** Modelled from the spec: [resetTimeoutTo(duration)], whose body
    (ManagedConnection.cpp) is not among the sources: with a manager attached,
    (re)schedules the idle-expiry callback of the connection at address [this]
    after [timeout]; without one, does nothing. *)
Definition resetTimeoutTo (this : ptr) (timeout : milliseconds) (c : Conn) (env : Env)
  : option (Conn * Env) :=
  if bool_decide (connectionManager_ c = nullptr) then Some (c, env)
  else
    match scheduleTimeoutOn (connectionManager_ c) this timeout env with
    | Some env' => Some (c, env')
    | None => None
    end.

(** Modelled from the spec: [resetTimeout()], whose body
    (ManagedConnection.cpp) is not among the sources: with a manager attached,
    (re)schedules the idle-expiry callback after the manager's default
    interval; without one, does nothing. *)
Definition resetTimeout (this : ptr) (c : Conn) (env : Env) : option (Conn * Env) :=
  if bool_decide (connectionManager_ c = nullptr) then Some (c, env)
  else
    match managers env !! connectionManager_ c with
    | Some m => resetTimeoutTo this (defaultTimeout m) c env
    | None => None
    end.

(** The pending idle-timeout registration of the connection at [this], looked
    up on every manager. *)
Definition pendingTimeouts (this : ptr) (env : Env) : list (ptr * milliseconds) :=
  omap (fun '(mgr, m) => match timer m !! this with
                         | Some t => Some (mgr, t)
                         | None => None
                         end)
       (map_to_list (managers env)).

End Timeouts.

(** ** A concrete connection type *)

Module Mock.

(** A test double that counts the calls of its hooks. *)
Record MockConnection : Type := Build_MockConnection {
  notified : nat;
  closed : nat;
  busy : bool
}.

#[global] Instance impl : ConnectionImpl MockConnection := {|
  notifyPendingShutdown m := Build_MockConnection (S (notified m)) (closed m) (busy m);
  closeWhenIdle m := Build_MockConnection (notified m) (S (closed m)) (busy m);
  isBusy := busy;
  getIdleTime_override := None
|}.

Definition conn0 : ManagedConnection MockConnection unit :=
  construct nullptr tt (Build_MockConnection 0 0 false).

(** A connection type that overrides [getIdleTime]. *)
Record TrackedConnection : Type := Build_TrackedConnection {
  idleFor : milliseconds
}.

#[global] Instance tracked_impl : ConnectionImpl TrackedConnection := {|
  notifyPendingShutdown m := m;
  closeWhenIdle m := m;
  isBusy _ := false;
  getIdleTime_override := Some idleFor
|}.

Definition tracked0 : ManagedConnection TrackedConnection unit :=
  construct nullptr tt (Build_TrackedConnection 5000%Z).

(** A manager at address 16 with a 60000 ms default timeout. *)
Definition env0 : Env :=
  Build_Env 0%Z {[ 16%N := Build_ConnectionManager 60000%Z ∅ ]}.

End Mock.

(** * Properties *)

Section DrainProperties.
Context {Derived ListHook : Type} `{Impl : ConnectionImpl Derived}.

Local Abbreviation Conn := (ManagedConnection Derived ListHook).

Implicit Types (this c : Conn) (op : DrainOp) (ops : list DrainOp).

(** Splits on every [bool_decide] in sight, then closes the goal by
    contradiction between states or by arithmetic. *)
Local Ltac bool_cases :=
  repeat case_bool_decide; try congruence; try lia.

(** ** One call *)

Lemma fireNotifyPendingShutdown_fires c :
  state_ c = NONE ->
  fireNotifyPendingShutdown c =
    Build_Outcome tt
      (Build_ManagedConnection SENT_NOTIFY_PENDING_SHUTDOWN (connectionManager_ c)
         (listHook_ c) (notifyPendingShutdown (derived c)))
      [NotifyPendingShutdown].
Proof.
  intros Hs. unfold fireNotifyPendingShutdown, bind, load; cbn.
  rewrite Hs. reflexivity.
Qed.

Lemma fireNotifyPendingShutdown_skips c :
  state_ c <> NONE ->
  fireNotifyPendingShutdown c = Build_Outcome tt c [].
Proof.
  intros Hs. unfold fireNotifyPendingShutdown, bind, load; cbn.
  rewrite bool_decide_eq_false_2 by exact Hs. reflexivity.
Qed.

Lemma fireCloseWhenIdle_fires c force_to_close :
  force_to_close = true \/ state_ c = SENT_NOTIFY_PENDING_SHUTDOWN ->
  fireCloseWhenIdle force_to_close c =
    Build_Outcome tt
      (Build_ManagedConnection SENT_CLOSE_WHEN_IDLE (connectionManager_ c)
         (listHook_ c) (closeWhenIdle (derived c)))
      [CloseWhenIdle].
Proof.
  intros Hg. unfold fireCloseWhenIdle, bind, load; cbn.
  destruct Hg as [-> | ->]; [reflexivity | ].
  rewrite orb_true_r. reflexivity.
Qed.

Lemma fireCloseWhenIdle_skips c :
  state_ c <> SENT_NOTIFY_PENDING_SHUTDOWN ->
  fireCloseWhenIdle false c = Build_Outcome tt c [].
Proof.
  intros Hs. unfold fireCloseWhenIdle, bind, load; cbn.
  rewrite bool_decide_eq_false_2 by exact Hs. reflexivity.
Qed.

(** ** Sequences *)

Lemma self_run_cons op ops c :
  self (run (op :: ops) c) = self (run ops (self (call op c))).
Proof. reflexivity. Qed.

Lemma fired_run_cons op ops c :
  fired (run (op :: ops) c) = fired (call op c) ++ fired (run ops (self (call op c))).
Proof. reflexivity. Qed.

Lemma call_cases op c : call_spec op c (call op c).
Proof.
  destruct op as [ | [ | ]]; cbn [call].
  - destruct (decide (state_ c = NONE)) as [Hs | Hs].
    + rewrite fireNotifyPendingShutdown_fires by exact Hs. now constructor.
    + rewrite fireNotifyPendingShutdown_skips by exact Hs. now constructor.
  - rewrite fireCloseWhenIdle_fires by (now left).
    eapply call_close; [reflexivity | now left].
  - destruct (decide (state_ c = SENT_NOTIFY_PENDING_SHUTDOWN)) as [Hs | Hs].
    + rewrite fireCloseWhenIdle_fires by (now right).
      eapply call_close; [reflexivity | now right].
    + rewrite fireCloseWhenIdle_skips by exact Hs. now constructor.
Qed.


(** The drain state never moves backwards in a call. *)
Lemma call_rank op c : rank (state_ c) <= rank (state_ (self (call op c))).
Proof.
  destruct (call_cases op c) as [_ Hs | f _ _ | _ _]; cbn.
  - rewrite Hs. cbn. lia.
  - destruct (state_ c); cbn; lia.
  - lia.
Qed.

Lemma run_rank ops : forall c, rank (state_ c) <= rank (state_ (self (run ops c))).
Proof.
  induction ops as [ | op ops IH]; intros c.
  - cbn. lia.
  - rewrite self_run_cons. etransitivity; [apply call_rank | apply IH].
Qed.

(** The shape of the log of a sequence: at most one [NotifyPendingShutdown],
    then only [CloseWhenIdle]s, one for each forced close and at most one
    more. *)
Lemma run_log_shape ops : forall c,
  exists n m,
    fired (run ops c) = repeat NotifyPendingShutdown n ++ repeat CloseWhenIdle m /\
    n <= (if bool_decide (state_ c = NONE) then 1 else 0) /\
    forcedCalls ops <= m /\
    m <= forcedCalls ops + (if bool_decide (state_ c = SENT_CLOSE_WHEN_IDLE) then 0 else 1).
Proof.
  induction ops as [ | op ops IH]; intros c.
  - exists 0, 0. cbn. repeat split; lia.
  - rewrite fired_run_cons.
    destruct (call_cases op c) as [-> Hs | f -> Hg | Hf Hp]; cbn [self fired].
    + destruct (IH (Build_ManagedConnection SENT_NOTIFY_PENDING_SHUTDOWN
                      (connectionManager_ c) (listHook_ c)
                      (notifyPendingShutdown (derived c))))
        as (n & m & -> & Hn & Hm1 & Hm2).
      cbn [state_] in Hn, Hm2. assert (n = 0) as -> by bool_cases.
      exists 1, m. rewrite Hs. cbn. repeat split; bool_cases.
    + destruct (IH (Build_ManagedConnection SENT_CLOSE_WHEN_IDLE
                      (connectionManager_ c) (listHook_ c)
                      (closeWhenIdle (derived c))))
        as (n & m & -> & Hn & Hm1 & Hm2).
      cbn [state_] in Hn, Hm2. assert (n = 0) as -> by bool_cases.
      exists 0, (S m). cbn [repeat app forcedCalls is_forced].
      split; [reflexivity | ]. split; [lia | ].
      destruct Hg as [-> | Hs].
      * split; bool_cases.
      * rewrite Hs. destruct f; cbn; split; bool_cases.
    + destruct (IH c) as (n & m & -> & Hn & Hm1 & Hm2).
      exists n, m. cbn [app forcedCalls]. rewrite Hf. cbn. repeat split; lia.
Qed.

Lemma timesFired_shape h n m :
  timesFired h (repeat NotifyPendingShutdown n ++ repeat CloseWhenIdle m) =
  match h with NotifyPendingShutdown => n | CloseWhenIdle => m end.
Proof.
  unfold timesFired. rewrite count_occ_app.
  destruct h.
  - rewrite count_occ_repeat_eq by reflexivity.
    rewrite count_occ_repeat_neq by discriminate. lia.
  - rewrite count_occ_repeat_neq by discriminate.
    rewrite count_occ_repeat_eq by reflexivity. lia.
Qed.


(** The concrete type's members change by the logged hooks and nothing else. *)
Lemma call_derived op c :
  derived (self (call op c)) =
  fold_left (fun d h => hook_body h d) (fired (call op c)) (derived c).
Proof. destruct (call_cases op c); reflexivity. Qed.

Lemma run_derived ops : forall c,
  derived (self (run ops c)) =
  fold_left (fun d h => hook_body h d) (fired (run ops c)) (derived c).
Proof.
  induction ops as [ | op ops IH]; intros c; [reflexivity | ].
  rewrite self_run_cons, fired_run_cons, fold_left_app, IH, call_derived.
  reflexivity.
Qed.

(** The members of the base other than [state_] are not written. *)
Lemma call_frame op c :
  connectionManager_ (self (call op c)) = connectionManager_ c /\
  listHook_ (self (call op c)) = listHook_ c.
Proof. destruct (call_cases op c); split; reflexivity. Qed.

Lemma run_frame ops : forall c,
  connectionManager_ (self (run ops c)) = connectionManager_ c /\
  listHook_ (self (run ops c)) = listHook_ c.
Proof.
  induction ops as [ | op ops IH]; intros c; [split; reflexivity | ].
  rewrite self_run_cons.
  destruct (IH (self (call op c))) as [-> ->]. apply call_frame.
Qed.

(** ** Visited states *)

Lemma history_head ops c : exists t, history ops c = state_ c :: t.
Proof. destruct ops; cbn; eauto. Qed.

Lemma visited_nil c : visited [] c = [state_ c].
Proof. reflexivity. Qed.

Lemma visited_cons op ops c :
  visited (op :: ops) c =
  if bool_decide (state_ c = state_ (self (call op c)))
  then visited ops (self (call op c))
  else state_ c :: visited ops (self (call op c)).
Proof.
  unfold visited. cbn [history].
  destruct (history_head ops (self (call op c))) as [t ->].
  reflexivity.
Qed.

Lemma visited_from_close ops : forall c,
  state_ c = SENT_CLOSE_WHEN_IDLE -> visited ops c = [SENT_CLOSE_WHEN_IDLE].
Proof.
  induction ops as [ | op ops IH]; intros c Hs.
  - rewrite visited_nil, Hs. reflexivity.
  - rewrite visited_cons.
    destruct (call_cases op c) as [_ Hn | f _ _ | _ _]; cbn [self state_].
    + congruence.
    + rewrite Hs, bool_decide_eq_true_2 by reflexivity. now apply IH.
    + rewrite bool_decide_eq_true_2 by reflexivity. now apply IH.
Qed.

Lemma visited_from_notified ops : forall c,
  state_ c = SENT_NOTIFY_PENDING_SHUTDOWN ->
  visited ops c = [SENT_NOTIFY_PENDING_SHUTDOWN] \/
  visited ops c = [SENT_NOTIFY_PENDING_SHUTDOWN; SENT_CLOSE_WHEN_IDLE].
Proof.
  induction ops as [ | op ops IH]; intros c Hs.
  - left. rewrite visited_nil, Hs. reflexivity.
  - rewrite visited_cons.
    destruct (call_cases op c) as [_ Hn | f _ _ | _ _]; cbn [self state_].
    + congruence.
    + rewrite Hs, bool_decide_eq_false_2 by discriminate.
      right. f_equal. now apply visited_from_close.
    + rewrite bool_decide_eq_true_2 by reflexivity. now apply IH.
Qed.

(** From [NONE] the visited states are a prefix of the chain, or the chain
    without its middle; the latter needs a forced close issued while the
    state is still [NONE]. *)
Lemma visited_from_none ops : forall c,
  state_ c = NONE ->
  (visitsChainPrefix ops c /\ visited ops c <> []) \/
  (visited ops c = [NONE; SENT_CLOSE_WHEN_IDLE] /\
   exists pre post,
     ops = pre ++ FireCloseWhenIdle true :: post /\
     state_ (self (run pre c)) = NONE).
Proof.
  unfold visitsChainPrefix, drainChain.
  induction ops as [ | op ops IH]; intros c Hs.
  - left. rewrite visited_nil, Hs. split; [ | discriminate].
    now exists [SENT_NOTIFY_PENDING_SHUTDOWN; SENT_CLOSE_WHEN_IDLE].
  - rewrite visited_cons.
    pose proof (call_cases op c) as Hc.
    inversion Hc as [_ _ Hr | f Hop Hg Hr | _ _ Hr]; cbn [self state_].
    + rewrite Hs, bool_decide_eq_false_2 by discriminate. left.
      split; [ | discriminate].
      destruct (visited_from_notified ops
                  (Build_ManagedConnection SENT_NOTIFY_PENDING_SHUTDOWN
                     (connectionManager_ c) (listHook_ c)
                     (notifyPendingShutdown (derived c))) eq_refl) as [-> | ->].
      * now exists [SENT_CLOSE_WHEN_IDLE].
      * now exists [].
    + rewrite Hs, bool_decide_eq_false_2 by discriminate.
      rewrite visited_from_close by reflexivity.
      destruct Hg as [-> | Hn]; [ | congruence].
      right. split; [reflexivity | ].
      exists [], ops. split; [now rewrite Hop | exact Hs].
    + rewrite bool_decide_eq_true_2 by reflexivity.
      destruct (IH c Hs) as [Hp | (Hv & pre & post & -> & Hpre)]; [now left | ].
      right. split; [exact Hv | ].
      exists (op :: pre), post. split; [reflexivity | ].
      rewrite self_run_cons, <- Hr. exact Hpre.
Qed.

(** ** The drain interface *)

(** C1: [fireCloseWhenIdle(force_to_close)], called in any drain state with
    [force_to_close] true or in state [SENT_NOTIFY_PENDING_SHUTDOWN], sets the
    state to [SENT_CLOSE_WHEN_IDLE] and calls the [closeWhenIdle] hook exactly
    once; in every other case it changes nothing and calls no hook; a forced
    call reaches [SENT_CLOSE_WHEN_IDLE] whatever the state was. *)
Theorem fireCloseWhenIdle_spec c force_to_close :
  (force_to_close = true \/ state_ c = SENT_NOTIFY_PENDING_SHUTDOWN ->
   state_ (self (fireCloseWhenIdle force_to_close c)) = SENT_CLOSE_WHEN_IDLE /\
   fired (fireCloseWhenIdle force_to_close c) = [CloseWhenIdle] /\
   timesFired CloseWhenIdle (fired (fireCloseWhenIdle force_to_close c)) = 1 /\
   derived (self (fireCloseWhenIdle force_to_close c)) = closeWhenIdle (derived c)) /\
  (force_to_close = false /\ state_ c <> SENT_NOTIFY_PENDING_SHUTDOWN ->
   self (fireCloseWhenIdle force_to_close c) = c /\
   fired (fireCloseWhenIdle force_to_close c) = []) /\
  (force_to_close = true ->
   state_ (self (fireCloseWhenIdle force_to_close c)) = SENT_CLOSE_WHEN_IDLE).
Proof.
  split; [ | split].
  - intros Hg. rewrite fireCloseWhenIdle_fires by exact Hg.
    repeat split; reflexivity.
  - intros [-> Hs]. rewrite fireCloseWhenIdle_skips by exact Hs.
    split; reflexivity.
  - intros ->. rewrite fireCloseWhenIdle_fires by (now left). reflexivity.
Qed.

(** C2: over any sequence of [fireNotifyPendingShutdown] and
    [fireCloseWhenIdle] calls the [notifyPendingShutdown] hook is called at
    most once.  [fireNotifyPendingShutdown] in state [NONE] moves to
    [SENT_NOTIFY_PENDING_SHUTDOWN] and calls the hook; in any other state it
    changes nothing and calls nothing; called twice from [NONE] it calls the
    hook exactly once. *)
Theorem notifyPendingShutdown_at_most_once :
  (forall c, state_ c = NONE ->
     state_ (self (fireNotifyPendingShutdown c)) = SENT_NOTIFY_PENDING_SHUTDOWN /\
     fired (fireNotifyPendingShutdown c) = [NotifyPendingShutdown] /\
     derived (self (fireNotifyPendingShutdown c)) = notifyPendingShutdown (derived c)) /\
  (forall c, state_ c <> NONE ->
     self (fireNotifyPendingShutdown c) = c /\
     fired (fireNotifyPendingShutdown c) = []) /\
  (forall ops c, firesAtMostOnce NotifyPendingShutdown ops c) /\
  (forall c, state_ c = NONE ->
     timesFired NotifyPendingShutdown
       (fired (run [FireNotifyPendingShutdown; FireNotifyPendingShutdown] c)) = 1).
Proof.
  repeat split.
  - now rewrite fireNotifyPendingShutdown_fires.
  - now rewrite fireNotifyPendingShutdown_fires.
  - now rewrite fireNotifyPendingShutdown_fires.
  - now rewrite fireNotifyPendingShutdown_skips.
  - now rewrite fireNotifyPendingShutdown_skips.
  - intros ops c. unfold firesAtMostOnce.
    destruct (run_log_shape ops c) as (n & m & -> & Hn & _).
    rewrite timesFired_shape. bool_cases.
  - intros c Hs. rewrite fired_run_cons. cbn [call].
    rewrite fireNotifyPendingShutdown_fires by exact Hs. cbn [self fired].
    rewrite fired_run_cons. cbn [call].
    rewrite fireNotifyPendingShutdown_skips by discriminate. reflexivity.
Qed.

(** C3: over any sequence of drain calls, forced or not, the drain state only
    moves forward along [NONE], [SENT_NOTIFY_PENDING_SHUTDOWN],
    [SENT_CLOSE_WHEN_IDLE] and never back; a call made in a state other than
    the one it waits for returns normally with the object unchanged and no
    hook called.  A state change is a move to the next state, except for the
    forced close issued in [NONE], which waits for no state. *)
Theorem drainState_forward_only :
  (forall ops c, rank (state_ c) <= rank (state_ (self (run ops c)))) /\
  (forall op c, ~ predecessorMatches op (state_ c) ->
     call op c = Build_Outcome tt c []) /\
  (forall op c, state_ (self (call op c)) <> state_ c ->
     rank (state_ (self (call op c))) = S (rank (state_ c)) \/
     (op = FireCloseWhenIdle true /\ state_ c = NONE /\
      state_ (self (call op c)) = SENT_CLOSE_WHEN_IDLE)).
Proof.
  split; [ | split].
  - intros ops c. apply run_rank.
  - intros op c Hp.
    destruct op as [ | [ | ]]; unfold predecessorMatches in Hp; cbn in Hp.
    + now apply fireNotifyPendingShutdown_skips.
    + tauto.
    + now apply fireCloseWhenIdle_skips.
  - intros op c.
    destruct (call_cases op c) as [_ Hs | f Hop Hg | _ _]; cbn [self state_].
    + intros _. left. now rewrite Hs.
    + intros Hne. destruct Hg as [-> | Hs].
      * destruct (state_ c) eqn:Hs; [right | left | congruence]; auto.
      * left. now rewrite Hs.
    + congruence.
Qed.

(** C4, amended: starting in [NONE], the states a connection visits over any
    sequence of drain calls form a non-empty prefix of [NONE],
    [SENT_NOTIFY_PENDING_SHUTDOWN], [SENT_CLOSE_WHEN_IDLE], or else are
    [NONE], [SENT_CLOSE_WHEN_IDLE]; the latter happens only when a forced
    close is issued while the state is still [NONE], so with no forced close
    the visited states are always such a prefix. *)
Theorem visited_order ops c :
  state_ c = NONE ->
  ((visitsChainPrefix ops c /\ visited ops c <> []) \/
   (visited ops c = [NONE; SENT_CLOSE_WHEN_IDLE] /\
    exists pre post,
      ops = pre ++ FireCloseWhenIdle true :: post /\
      state_ (self (run pre c)) = NONE)) /\
  (forcedCalls ops = 0 -> visitsChainPrefix ops c).
Proof.
  intros Hs. split; [now apply visited_from_none | ].
  intros Hf.
  destruct (visited_from_none ops c Hs) as [[Hp _] | (_ & pre & post & -> & _)];
    [exact Hp | ].
  exfalso. clear -Hf. induction pre as [ | op pre IH]; cbn in Hf; [lia | ].
  apply IH. lia.
Qed.

(** C5, amended: over any sequence of drain calls the
    [notifyPendingShutdown] hook is called at most once; the [closeWhenIdle]
    hook is called once for every forced [fireCloseWhenIdle] and at most once
    more, hence at most once when no call is forced; and in the log every
    [notifyPendingShutdown] comes before every [closeWhenIdle]. *)
Theorem drain_hooks_count_and_order ops c :
  firesAtMostOnce NotifyPendingShutdown ops c /\
  forcedCalls ops <= timesFired CloseWhenIdle (fired (run ops c)) /\
  timesFired CloseWhenIdle (fired (run ops c)) <= forcedCalls ops + 1 /\
  (forcedCalls ops = 0 -> firesAtMostOnce CloseWhenIdle ops c) /\
  exists n m,
    fired (run ops c) = repeat NotifyPendingShutdown n ++ repeat CloseWhenIdle m.
Proof.
  unfold firesAtMostOnce.
  destruct (run_log_shape ops c) as (n & m & -> & Hn & Hm1 & Hm2).
  rewrite !timesFired_shape.
  split; [bool_cases | ].
  split; [exact Hm1 | ].
  split; [bool_cases | ].
  split; [intros Hf; bool_cases | ].
  now exists n, m.
Qed.

(** C6: from the initial state [NONE], [fireNotifyPendingShutdown()] followed
    by [fireCloseWhenIdle(false)] calls [notifyPendingShutdown] exactly once,
    then [closeWhenIdle] exactly once, in that order. *)
Theorem notify_then_close_sweep c :
  state_ c = NONE ->
  fired (run [FireNotifyPendingShutdown; FireCloseWhenIdle false] c) =
    [NotifyPendingShutdown; CloseWhenIdle] /\
  timesFired NotifyPendingShutdown
    (fired (run [FireNotifyPendingShutdown; FireCloseWhenIdle false] c)) = 1 /\
  timesFired CloseWhenIdle
    (fired (run [FireNotifyPendingShutdown; FireCloseWhenIdle false] c)) = 1 /\
  state_ (self (run [FireNotifyPendingShutdown; FireCloseWhenIdle false] c)) =
    SENT_CLOSE_WHEN_IDLE /\
  derived (self (run [FireNotifyPendingShutdown; FireCloseWhenIdle false] c)) =
    closeWhenIdle (notifyPendingShutdown (derived c)).
Proof.
  intros Hs.
  assert (run [FireNotifyPendingShutdown; FireCloseWhenIdle false] c =
          Build_Outcome tt
            (Build_ManagedConnection SENT_CLOSE_WHEN_IDLE (connectionManager_ c)
               (listHook_ c) (closeWhenIdle (notifyPendingShutdown (derived c))))
            [NotifyPendingShutdown; CloseWhenIdle]) as ->.
  { cbn [run call]. unfold bind at 1.
    rewrite fireNotifyPendingShutdown_fires by exact Hs. cbn [self fired retval].
    unfold bind at 1.
    rewrite fireCloseWhenIdle_fires by (now right). reflexivity. }
  repeat split; reflexivity.
Qed.

(** ** The connection-manager back-reference *)

Lemma self_runCalls_cons (k : Call) (calls : list Call) c :
  self (runCalls (k :: calls) c) = self (runCalls calls (self (invoke k c))).
Proof. reflexivity. Qed.

Lemma runCalls_connectionManager (calls : list Call) : forall c,
  connectionManager_ (self (runCalls calls c)) = lastSet calls (connectionManager_ c).
Proof.
  induction calls as [ | k calls IH]; intros c; [reflexivity | ].
  rewrite self_runCalls_cons, IH.
  destruct k as [op | mgr]; cbn [invoke lastSet].
  - now destruct (call_frame op c) as [-> _].
  - reflexivity.
Qed.

(** C10: a drain call writes no member of the base other than [state_]: the
    manager back-reference and the list hook are as before, and the members of
    the concrete type change by the hooks called and nothing else.  Hence no
    sequence of drain calls changes the back-reference, and
    [getConnectionManager()] returns the pointer last passed to
    [setConnectionManager], whatever drain calls come in between. *)
Theorem drain_preserves_connectionManager :
  (forall op c,
     connectionManager_ (self (call op c)) = connectionManager_ c /\
     listHook_ (self (call op c)) = listHook_ c /\
     derived (self (call op c)) =
       fold_left (fun d h => hook_body h d) (fired (call op c)) (derived c)) /\
  (forall ops c,
     connectionManager_ (self (run ops c)) = connectionManager_ c /\
     listHook_ (self (run ops c)) = listHook_ c) /\
  (forall calls c,
     retval (getConnectionManager (self (runCalls calls c))) =
     lastSet calls (connectionManager_ c)) /\
  (forall mgr ops c,
     retval (getConnectionManager (self (run ops (self (setConnectionManager mgr c))))) =
     mgr).
Proof.
  split; [ | split; [ | split]].
  - intros op c. destruct (call_frame op c) as [H1 H2].
    split; [exact H1 | split; [exact H2 | apply call_derived]].
  - intros ops c. apply run_frame.
  - intros calls c. apply runCalls_connectionManager.
  - intros mgr ops c. cbn [getConnectionManager load retval].
    now destruct (run_frame ops (self (setConnectionManager mgr c))) as [-> _].
Qed.

(** ** Idle time *)

(** C9: when the concrete type does not override [getIdleTime], the call
    returns exactly 0 ms, and by the eviction rule such a connection is never
    selected, hence never dropped, by an idle-eviction sweep. *)
Theorem getIdleTime_default c :
  getIdleTime_override = None ->
  getIdleTime c = 0%Z /\
  (forall eligible, idleEvictionSelects eligible c = false) /\
  (forall eligible conns, ~ In c (dropIdleConnections eligible conns)).
Proof.
  intros Hov.
  assert (getIdleTime c = 0%Z) as H0 by (unfold getIdleTime; now rewrite Hov).
  assert (forall eligible, idleEvictionSelects eligible c = false) as Hsel.
  { intros eligible. unfold idleEvictionSelects. now rewrite H0. }
  split; [exact H0 | split; [exact Hsel | ]].
  intros eligible conns Hin. unfold dropIdleConnections in Hin.
  apply filter_In in Hin as [_ Hin]. rewrite Hsel in Hin. discriminate.
Qed.

End DrainProperties.

(** ** Idle timeouts *)

Section TimeoutProperties.
Context {Derived ListHook : Type}.

Local Abbreviation Conn := (ManagedConnection Derived ListHook).

Implicit Types (c : Conn) (this : ptr) (env : Env).

(** With a manager attached, [resetTimeout] leaves one registration for the
    connection on that manager, due one default interval from now. *)
Lemma resetTimeout_attached this c env m :
  connectionManager_ c <> nullptr ->
  managers env !! connectionManager_ c = Some m ->
  exists env' m',
    resetTimeout this c env = Some (c, env') /\
    now env' = now env /\
    managers env' !! connectionManager_ c = Some m' /\
    defaultTimeout m' = defaultTimeout m /\
    timer m' !! this = Some (now env + defaultTimeout m)%Z.
Proof.
  intros Hnn Hm. unfold resetTimeout, resetTimeoutTo, scheduleTimeoutOn.
  rewrite !bool_decide_eq_false_2 by exact Hnn. rewrite !Hm.
  eexists _, _. split; [reflexivity | ]. cbn.
  split; [reflexivity | ]. rewrite lookup_insert_eq.
  split; [reflexivity | ]. cbn.
  split; [reflexivity | ]. apply lookup_insert_eq.
Qed.

(** C7: on a connection whose manager back-reference is null,
    [resetTimeout()] returns with the connection and everything outside it
    unchanged; in particular no timer is registered. *)
Theorem resetTimeout_detached this c env :
  connectionManager_ c = nullptr ->
  resetTimeout this c env = Some (c, env) /\
  (forall c' env', resetTimeout this c env = Some (c', env') ->
     c' = c /\ pendingTimeouts this env' = pendingTimeouts this env).
Proof.
  intros Hnull.
  assert (resetTimeout this c env = Some (c, env)) as Hr.
  { unfold resetTimeout. now rewrite bool_decide_eq_true_2. }
  split; [exact Hr | ].
  intros c' env' Hr'. rewrite Hr in Hr'. injection Hr' as <- <-.
  split; reflexivity.
Qed.

End TimeoutProperties.

(** * The properties on the mock connection *)

Example forced_close_from_none :
  run [FireCloseWhenIdle true] Mock.conn0 =
  Build_Outcome tt
    (Build_ManagedConnection SENT_CLOSE_WHEN_IDLE nullptr tt
       (Mock.Build_MockConnection 0 1 false))
    [CloseWhenIdle].
Proof. reflexivity. Qed.

Example unforced_close_from_none :
  run [FireCloseWhenIdle false] Mock.conn0 = Build_Outcome tt Mock.conn0 [].
Proof. reflexivity. Qed.

Example visited_full_drain :
  visited [FireNotifyPendingShutdown; FireNotifyPendingShutdown;
           FireCloseWhenIdle false; FireCloseWhenIdle true] Mock.conn0 =
  [NONE; SENT_NOTIFY_PENDING_SHUTDOWN; SENT_CLOSE_WHEN_IDLE].
Proof. reflexivity. Qed.

Example overridden_idle_time_is_selected :
  getIdleTime Mock.tracked0 = 5000%Z /\
  idleEvictionSelects (fun _ => true) Mock.tracked0 = true.
Proof. split; reflexivity. Qed.

Example reset_with_manager_registers :
  pendingTimeouts 4096%N Mock.env0 = [] /\
  (resetTimeout 4096%N
     (self (setConnectionManager 16%N Mock.conn0)) Mock.env0
   ≫= fun '(_, env) => Some (pendingTimeouts 4096%N env)) =
  Some [(16%N, 60000%Z)].
Proof. split; vm_compute; reflexivity. Qed.

Lemma fireCloseWhenIdle_spec_witness :
  (state_ (self (fireCloseWhenIdle true Mock.conn0)) = SENT_CLOSE_WHEN_IDLE /\
   fired (fireCloseWhenIdle true Mock.conn0) = [CloseWhenIdle] /\
   timesFired CloseWhenIdle (fired (fireCloseWhenIdle true Mock.conn0)) = 1 /\
   derived (self (fireCloseWhenIdle true Mock.conn0)) =
     closeWhenIdle (derived Mock.conn0)) /\
  (self (fireCloseWhenIdle false Mock.conn0) = Mock.conn0 /\
   fired (fireCloseWhenIdle false Mock.conn0) = []) /\
  state_ (self (fireCloseWhenIdle true Mock.conn0)) = SENT_CLOSE_WHEN_IDLE.
Proof.
  split; [ | split].
  - apply (proj1 (fireCloseWhenIdle_spec Mock.conn0 true)). left. reflexivity.
  - apply (proj1 (proj2 (fireCloseWhenIdle_spec Mock.conn0 false))).
    split; [reflexivity | discriminate].
  - apply (proj2 (proj2 (fireCloseWhenIdle_spec Mock.conn0 true))). reflexivity.
Defined.

Lemma notifyPendingShutdown_at_most_once_witness :
  (state_ (self (fireNotifyPendingShutdown Mock.conn0)) = SENT_NOTIFY_PENDING_SHUTDOWN /\
   fired (fireNotifyPendingShutdown Mock.conn0) = [NotifyPendingShutdown] /\
   derived (self (fireNotifyPendingShutdown Mock.conn0)) =
     notifyPendingShutdown (derived Mock.conn0)) /\
  (self (fireNotifyPendingShutdown (self (fireCloseWhenIdle true Mock.conn0))) =
     self (fireCloseWhenIdle true Mock.conn0) /\
   fired (fireNotifyPendingShutdown (self (fireCloseWhenIdle true Mock.conn0))) = []) /\
  timesFired NotifyPendingShutdown
    (fired (run [FireNotifyPendingShutdown; FireNotifyPendingShutdown] Mock.conn0)) = 1.
Proof.
  pose proof (@notifyPendingShutdown_at_most_once Mock.MockConnection unit _)
    as (Hfire & Hskip & _ & Htwice).
  split; [ | split].
  - apply Hfire. reflexivity.
  - apply Hskip. discriminate.
  - apply Htwice. reflexivity.
Defined.

Lemma drainState_forward_only_witness :
  call (FireCloseWhenIdle false) Mock.conn0 = Build_Outcome tt Mock.conn0 [] /\
  (rank (state_ (self (call FireNotifyPendingShutdown Mock.conn0))) =
     S (rank (state_ Mock.conn0)) \/
   (FireNotifyPendingShutdown = FireCloseWhenIdle true /\
    state_ Mock.conn0 = NONE /\
    state_ (self (call FireNotifyPendingShutdown Mock.conn0)) = SENT_CLOSE_WHEN_IDLE)).
Proof.
  pose proof (@drainState_forward_only Mock.MockConnection unit _)
    as (_ & Hskip & Hstep).
  split.
  - apply Hskip. unfold predecessorMatches. cbn. discriminate.
  - apply Hstep. cbn. discriminate.
Defined.

(** C4 as stated fails: a forced close on a new connection visits [NONE] and
    then [SENT_CLOSE_WHEN_IDLE], which is no prefix of the chain. *)
Lemma visited_prefix_counterexample :
  state_ Mock.conn0 = NONE /\
  visited [FireCloseWhenIdle true] Mock.conn0 = [NONE; SENT_CLOSE_WHEN_IDLE] /\
  ~ visitsChainPrefix [FireCloseWhenIdle true] Mock.conn0.
Proof.
  split; [reflexivity | split; [reflexivity | ]].
  intros [k Hk]. vm_compute in Hk. discriminate.
Qed.

Lemma visited_order_witness :
  ((visitsChainPrefix [FireNotifyPendingShutdown; FireCloseWhenIdle false] Mock.conn0 /\
    visited [FireNotifyPendingShutdown; FireCloseWhenIdle false] Mock.conn0 <> []) \/
   (visited [FireNotifyPendingShutdown; FireCloseWhenIdle false] Mock.conn0 =
      [NONE; SENT_CLOSE_WHEN_IDLE] /\
    exists pre post,
      [FireNotifyPendingShutdown; FireCloseWhenIdle false] =
        pre ++ FireCloseWhenIdle true :: post /\
      state_ (self (run pre Mock.conn0)) = NONE)) /\
  visitsChainPrefix [FireNotifyPendingShutdown; FireCloseWhenIdle false] Mock.conn0.
Proof.
  pose proof (visited_order [FireNotifyPendingShutdown; FireCloseWhenIdle false]
                Mock.conn0 eq_refl) as [Hv Hp].
  split; [exact Hv | apply Hp; reflexivity].
Defined.

(** C5 as stated fails: two forced closes call [closeWhenIdle] twice. *)
Lemma closeWhenIdle_twice_counterexample :
  timesFired CloseWhenIdle
    (fired (run [FireCloseWhenIdle true; FireCloseWhenIdle true] Mock.conn0)) = 2 /\
  ~ firesAtMostOnce CloseWhenIdle
      [FireCloseWhenIdle true; FireCloseWhenIdle true] Mock.conn0.
Proof.
  split; [reflexivity | ].
  unfold firesAtMostOnce. vm_compute. lia.
Qed.

Lemma drain_hooks_count_and_order_witness :
  firesAtMostOnce CloseWhenIdle
    [FireNotifyPendingShutdown; FireCloseWhenIdle false; FireCloseWhenIdle false]
    Mock.conn0.
Proof.
  apply (drain_hooks_count_and_order
           [FireNotifyPendingShutdown; FireCloseWhenIdle false; FireCloseWhenIdle false]
           Mock.conn0).
  reflexivity.
Defined.

Lemma notify_then_close_sweep_witness :
  fired (run [FireNotifyPendingShutdown; FireCloseWhenIdle false] Mock.conn0) =
    [NotifyPendingShutdown; CloseWhenIdle].
Proof. apply (notify_then_close_sweep Mock.conn0). reflexivity. Defined.

Lemma resetTimeout_detached_witness :
  resetTimeout 4096%N Mock.conn0 Mock.env0 = Some (Mock.conn0, Mock.env0).
Proof. apply (resetTimeout_detached 4096%N Mock.conn0 Mock.env0). reflexivity. Defined.

Lemma getIdleTime_default_witness :
  getIdleTime Mock.conn0 = 0%Z.
Proof. apply (getIdleTime_default Mock.conn0). reflexivity. Defined.

(** * Further properties of the drain interface *)

Section DrainCompositions.
Context {Derived ListHook : Type} `{Impl : ConnectionImpl Derived}.

Implicit Types (c : ManagedConnection Derived ListHook) (op : DrainOp)
  (ops : list DrainOp).

Lemma self_run_app ops1 ops2 : forall c,
  self (run (ops1 ++ ops2) c) = self (run ops2 (self (run ops1 c))).
Proof.
  induction ops1 as [ | op ops1 IH]; intros c; [reflexivity | ].
  cbn [app]. rewrite !self_run_cons. apply IH.
Qed.

Lemma fired_run_app ops1 ops2 : forall c,
  fired (run (ops1 ++ ops2) c) =
  fired (run ops1 c) ++ fired (run ops2 (self (run ops1 c))).
Proof.
  induction ops1 as [ | op ops1 IH]; intros c; [reflexivity | ].
  cbn [app]. rewrite !fired_run_cons, self_run_cons, IH. apply app_assoc.
Qed.

(** An unforced call made right after the same call finds its state gone. *)
Lemma unforced_call_again op c :
  is_forced op = false ->
  call op (self (call op c)) = Build_Outcome tt (self (call op c)) [].
Proof.
  intros Hf. destruct op as [ | [ | ]]; [ | discriminate | ]; cbn [call].
  - destruct (decide (state_ c = NONE)) as [Hs | Hs].
    + rewrite (fireNotifyPendingShutdown_fires c Hs). cbn [self].
      now apply fireNotifyPendingShutdown_skips.
    + rewrite (fireNotifyPendingShutdown_skips c Hs). cbn [self].
      now apply fireNotifyPendingShutdown_skips.
  - destruct (decide (state_ c = SENT_NOTIFY_PENDING_SHUTDOWN)) as [Hs | Hs].
    + rewrite (fireCloseWhenIdle_fires c false (or_intror Hs)). cbn [self].
      now apply fireCloseWhenIdle_skips.
    + rewrite (fireCloseWhenIdle_skips c Hs). cbn [self].
      now apply fireCloseWhenIdle_skips.
Qed.

Lemma run_repeat_skipped op c :
  call op c = Build_Outcome tt c [] ->
  forall k, self (run (repeat op k) c) = c /\ fired (run (repeat op k) c) = [].
Proof.
  intros Hskip k. induction k as [ | k [IHs IHf]]; [split; reflexivity | ].
  cbn [repeat]. rewrite self_run_cons, fired_run_cons, Hskip. cbn [self fired].
  split; [exact IHs | exact IHf].
Qed.

(** In [SENT_CLOSE_WHEN_IDLE] only a forced close does anything, and it stays
    there. *)
Lemma run_from_close ops : forall c,
  state_ c = SENT_CLOSE_WHEN_IDLE ->
  state_ (self (run ops c)) = SENT_CLOSE_WHEN_IDLE /\
  fired (run ops c) = repeat CloseWhenIdle (forcedCalls ops) /\
  derived (self (run ops c)) = Nat.iter (forcedCalls ops) closeWhenIdle (derived c).
Proof.
  induction ops as [ | op ops IH]; intros c Hs; [repeat split; exact Hs | ].
  rewrite self_run_cons, fired_run_cons.
  destruct op as [ | [ | ]]; cbn [call forcedCalls is_forced].
  - rewrite fireNotifyPendingShutdown_skips by congruence. now apply IH.
  - rewrite fireCloseWhenIdle_fires by (now left). cbn [self fired].
    destruct (IH (Build_ManagedConnection SENT_CLOSE_WHEN_IDLE (connectionManager_ c)
                    (listHook_ c) (closeWhenIdle (derived c))) eq_refl)
      as (-> & -> & ->).
    cbn [derived]. split; [reflexivity | split; [reflexivity | ]].
    change (1 + forcedCalls ops) with (S (forcedCalls ops)).
    now rewrite Nat.iter_succ_r.
  - rewrite fireCloseWhenIdle_skips by congruence. now apply IH.
Qed.

Lemma run_unforced_from_close ops c :
  state_ c = SENT_CLOSE_WHEN_IDLE -> forcedCalls ops = 0 ->
  self (run ops c) = c /\ fired (run ops c) = [].
Proof.
  intros Hs Hf.
  destruct (run_from_close ops c Hs) as (Hst & Hlog & Hd).
  destruct (run_frame ops c) as [Hm Hl].
  rewrite Hf in Hlog, Hd. cbn in Hlog, Hd.
  split; [ | exact Hlog].
  destruct (self (run ops c)), c; cbn in *; congruence.
Qed.

Lemma forcedCalls_app ops1 ops2 :
  forcedCalls (ops1 ++ ops2) = forcedCalls ops1 + forcedCalls ops2.
Proof.
  induction ops1 as [ | op ops1 IH]; [reflexivity | ].
  cbn [app forcedCalls]. rewrite IH. lia.
Qed.

Lemma forcedCalls_sweeps k : forcedCalls (concat (repeat gracefulSweep k)) = 0.
Proof.
  induction k as [ | k IH]; [reflexivity | ].
  cbn [repeat concat]. now rewrite forcedCalls_app, IH.
Qed.

Lemma call_state_last_hook op c :
  state_ (self (call op c)) =
  match last (fired (call op c)) with
  | Some h => stateStoredFor h
  | None => state_ c
  end.
Proof. destruct (call_cases op c); reflexivity. Qed.

(** X1: any drain call repeated one or more times in a row leaves the same
    drain state as a single call; when the call is not forced, the repeats do
    nothing at all: the object and the hooks fired are those of one call. *)
Theorem drain_call_repeated op k c :
  state_ (self (run (repeat op (S k)) c)) = state_ (self (call op c)) /\
  (is_forced op = false ->
   self (run (repeat op (S k)) c) = self (call op c) /\
   fired (run (repeat op (S k)) c) = fired (call op c)).
Proof.
  cbn [repeat]. rewrite self_run_cons, fired_run_cons. split.
  - destruct (is_forced op) eqn:Hf.
    + destruct op as [ | [ | ]]; try discriminate. cbn [call].
      rewrite (fireCloseWhenIdle_fires c true) by (now left). cbn [self].
      now apply run_from_close.
    + now destruct (run_repeat_skipped op _ (unforced_call_again op c Hf) k) as [-> _].
  - intros Hf.
    destruct (run_repeat_skipped op _ (unforced_call_again op c Hf) k) as [-> ->].
    split; [reflexivity | apply app_nil_r].
Qed.

(** X2: once the state is [SENT_CLOSE_WHEN_IDLE] it stays so under every
    sequence of drain calls; from then on [notifyPendingShutdown] is never
    called, and [closeWhenIdle] is called exactly once per forced close and
    not otherwise. *)
Theorem close_when_idle_absorbing ops c :
  state_ c = SENT_CLOSE_WHEN_IDLE ->
  state_ (self (run ops c)) = SENT_CLOSE_WHEN_IDLE /\
  fired (run ops c) = repeat CloseWhenIdle (forcedCalls ops) /\
  timesFired NotifyPendingShutdown (fired (run ops c)) = 0 /\
  derived (self (run ops c)) = Nat.iter (forcedCalls ops) closeWhenIdle (derived c).
Proof.
  intros Hs. destruct (run_from_close ops c Hs) as (Hst & Hlog & Hd).
  split; [exact Hst | split; [exact Hlog | split; [ | exact Hd]]].
  rewrite Hlog. unfold timesFired. now apply count_occ_repeat_neq.
Qed.

(** X3: after any sequence of drain calls the drain state is the one stored
    for the hook fired last, and the initial state when none was fired. *)
Theorem state_records_last_hook ops : forall c,
  state_ (self (run ops c)) =
  match last (fired (run ops c)) with
  | Some h => stateStoredFor h
  | None => state_ c
  end.
Proof.
  induction ops as [ | op ops IH]; intros c; [reflexivity | ].
  rewrite self_run_cons, fired_run_cons, last_app, IH.
  destruct (last (fired (run ops (self (call op c))))); [reflexivity | ].
  apply call_state_last_hook.
Qed.

Lemma unforced_log_from_notified ops c :
  state_ c = SENT_NOTIFY_PENDING_SHUTDOWN -> forcedCalls ops = 0 ->
  fired (run ops c) = [] \/ fired (run ops c) = [CloseWhenIdle].
Proof.
  intros Hs Hf.
  destruct (run_log_shape ops c) as (n & m & -> & Hn & _ & Hm).
  rewrite Hs in Hn, Hm. rewrite Hf in Hm.
  rewrite bool_decide_eq_false_2 in Hn by discriminate.
  rewrite bool_decide_eq_false_2 in Hm by discriminate.
  assert (n = 0) as -> by lia.
  destruct m as [ | [ | m]]; [now left | now right | lia].
Qed.

(** X4: in a sequence without forced close, starting in [NONE], the hooks
    fired are a prefix of [notifyPendingShutdown], [closeWhenIdle]: as the
    comment on [closeWhenIdle] says, it is called after
    [notifyPendingShutdown], and neither is called twice. *)
Theorem unforced_log_prefix ops : forall c,
  forcedCalls ops = 0 -> state_ c = NONE ->
  fired (run ops c) `prefix_of` [NotifyPendingShutdown; CloseWhenIdle].
Proof.
  induction ops as [ | op ops IH]; intros c Hf Hs; [apply prefix_nil | ].
  rewrite fired_run_cons.
  destruct op as [ | [ | ]]; cbn [call forcedCalls is_forced] in *;
    [ | discriminate | ].
  - rewrite fireNotifyPendingShutdown_fires by exact Hs. cbn [self fired app].
    apply prefix_cons.
    destruct (unforced_log_from_notified ops
                (Build_ManagedConnection SENT_NOTIFY_PENDING_SHUTDOWN
                   (connectionManager_ c) (listHook_ c)
                   (notifyPendingShutdown (derived c))) eq_refl Hf) as [-> | ->].
    + apply prefix_nil.
    + reflexivity.
  - rewrite fireCloseWhenIdle_skips by congruence. cbn [self fired app].
    now apply IH.
Qed.



Lemma gracefulSweep_reaches_close c :
  state_ (self (run gracefulSweep c)) = SENT_CLOSE_WHEN_IDLE.
Proof. destruct c as [[ | | ] m l d]; reflexivity. Qed.

(** X6: one graceful sweep, [fireNotifyPendingShutdown()] then
    [fireCloseWhenIdle(false)], ends in [SENT_CLOSE_WHEN_IDLE] from every
    state, and sweeping again any number of times changes nothing and fires
    nothing more. *)
Theorem gracefulSweep_idempotent k c :
  state_ (self (run gracefulSweep c)) = SENT_CLOSE_WHEN_IDLE /\
  self (run (concat (repeat gracefulSweep (S k))) c) = self (run gracefulSweep c) /\
  fired (run (concat (repeat gracefulSweep (S k))) c) = fired (run gracefulSweep c).
Proof.
  split; [apply gracefulSweep_reaches_close | ].
  cbn [repeat concat]. rewrite self_run_app, fired_run_app.
  destruct (run_unforced_from_close (concat (repeat gracefulSweep k))
              (self (run gracefulSweep c))
              (gracefulSweep_reaches_close c) (forcedCalls_sweeps k)) as [-> ->].
  split; [reflexivity | apply app_nil_r].
Qed.

(** X7: a connection is still in [NONE] after a sequence of drain calls
    exactly when it started there and every call was an unforced
    [fireCloseWhenIdle]; in that case the object is untouched and no hook was
    fired. *)
Theorem stays_none_iff ops : forall c,
  (state_ (self (run ops c)) = NONE <->
   state_ c = NONE /\ Forall (fun op => op = FireCloseWhenIdle false) ops) /\
  (state_ (self (run ops c)) = NONE -> self (run ops c) = c /\ fired (run ops c) = []).
Proof.
  induction ops as [ | op ops IH]; intros c.
  - split; [ | intros _; split; reflexivity].
    split; [intros Hs; split; [exact Hs | constructor] | now intros [Hs _]].
  - assert (state_ (self (run (op :: ops) c)) = NONE ->
            state_ c = NONE /\ op = FireCloseWhenIdle false /\
            call op c = Build_Outcome tt c []) as Hinv.
    { intros Hend. rewrite self_run_cons in Hend.
      pose proof (run_rank ops (self (call op c))) as Hr1.
      pose proof (call_rank op c) as Hr0.
      rewrite Hend in Hr1. cbn in Hr1.
      assert (state_ (self (call op c)) = NONE) as Hmid
        by (destruct (state_ (self (call op c))); cbn in Hr1; [reflexivity | lia | lia]).
      rewrite Hmid in Hr0. cbn in Hr0.
      assert (state_ c = NONE) as Hs
        by (destruct (state_ c); cbn in Hr0; [reflexivity | lia | lia]).
      split; [exact Hs | ].
      destruct op as [ | [ | ]]; cbn [call] in *.
      - rewrite fireNotifyPendingShutdown_fires in Hmid by exact Hs. discriminate.
      - rewrite fireCloseWhenIdle_fires in Hmid by (now left). discriminate.
      - split; [reflexivity | apply fireCloseWhenIdle_skips; congruence]. }
    split; [split | ].
    + intros Hend. destruct (Hinv Hend) as (Hs & -> & Hskip).
      split; [exact Hs | ]. constructor; [reflexivity | ].
      rewrite self_run_cons, Hskip in Hend. cbn [self] in Hend.
      now apply (proj1 (IH c)) in Hend as [_ Hall].
    + intros [Hs Hall]. inversion Hall as [ | ? ? -> Hall']; subst.
      rewrite self_run_cons. cbn [call].
      rewrite fireCloseWhenIdle_skips by congruence. cbn [self].
      apply (proj1 (IH c)). now split.
    + intros Hend. destruct (Hinv Hend) as (Hs & -> & Hskip).
      rewrite self_run_cons, fired_run_cons in *. rewrite Hskip in *.
      cbn [self fired app] in *. now apply (proj2 (IH c)).
Qed.

End DrainCompositions.

Lemma drain_call_repeated_witness :
  self (run (repeat FireNotifyPendingShutdown 3) Mock.conn0) =
    self (call FireNotifyPendingShutdown Mock.conn0) /\
  fired (run (repeat FireNotifyPendingShutdown 3) Mock.conn0) =
    fired (call FireNotifyPendingShutdown Mock.conn0).
Proof.
  apply (proj2 (drain_call_repeated FireNotifyPendingShutdown 2 Mock.conn0)).
  reflexivity.
Defined.

Lemma close_when_idle_absorbing_witness :
  state_ (self (run [FireNotifyPendingShutdown; FireCloseWhenIdle true;
                     FireCloseWhenIdle false]
                  (self (fireCloseWhenIdle true Mock.conn0)))) =
    SENT_CLOSE_WHEN_IDLE /\
  fired (run [FireNotifyPendingShutdown; FireCloseWhenIdle true;
              FireCloseWhenIdle false]
           (self (fireCloseWhenIdle true Mock.conn0))) =
    repeat CloseWhenIdle 1.
Proof.
  destruct (close_when_idle_absorbing
              [FireNotifyPendingShutdown; FireCloseWhenIdle true;
               FireCloseWhenIdle false]
              (self (fireCloseWhenIdle true Mock.conn0)) eq_refl)
    as (Hs & Hlog & _).
  split; [exact Hs | exact Hlog].
Defined.

Lemma unforced_log_prefix_witness :
  fired (run [FireCloseWhenIdle false; FireNotifyPendingShutdown;
              FireNotifyPendingShutdown] Mock.conn0)
  `prefix_of` [NotifyPendingShutdown; CloseWhenIdle].
Proof.
  apply (unforced_log_prefix
           [FireCloseWhenIdle false; FireNotifyPendingShutdown;
            FireNotifyPendingShutdown] Mock.conn0); reflexivity.
Defined.

Lemma stays_none_iff_witness :
  state_ (self (run [FireCloseWhenIdle false; FireCloseWhenIdle false] Mock.conn0)) =
    NONE /\
  self (run [FireCloseWhenIdle false; FireCloseWhenIdle false] Mock.conn0) =
    Mock.conn0 /\
  fired (run [FireCloseWhenIdle false; FireCloseWhenIdle false] Mock.conn0) = [].
Proof.
  destruct (stays_none_iff [FireCloseWhenIdle false; FireCloseWhenIdle false]
              Mock.conn0) as [Hiff Hnoop].
  assert (state_ (self (run [FireCloseWhenIdle false; FireCloseWhenIdle false]
                          Mock.conn0)) = NONE) as Hs.
  { apply Hiff. split; [reflexivity | ]. repeat constructor. }
  split; [exact Hs | apply Hnoop; exact Hs].
Defined.
